(** * NGU server sync userscript: a shallow embedding of the click handler
      and of the button life cycle.

    Sources:
    - [src/tampermonkey.js]: the static variant, one button created at load.
    - [src/unnamed/part_000]: the observer variant, where [addSyncButton]
      is called again whenever the gear tab is seen with class [active].

    The click handler is textually the same in both files; it is embedded
    once, in [Handler.onClick]. *)

From Stdlib Require Import ZArith String Ascii List Lia.
From stdpp Require Import base list strings pretty.

Open Scope string_scope.
Open Scope list_scope.
Open Scope Z_scope.

Set Warnings "-register-all".

(** ** Effects of the script: console output, network requests, exceptions *)

Module Js.

(** Run-time errors the handler can raise. [CannotRead p] is the engine's
    "Cannot read properties of undefined (reading 'p')", [NotAFunction p]
    is "x.p is not a function", [HostError] is an exception raised inside
    the host page's own code (its [getState]). *)
Inductive Error :=
| CannotRead (p : string)
| NotAFunction (p : string)
| HostError.

Inductive Completion (A : Type) :=
| Normal (a : A)
| Abrupt (e : Error).
Arguments Normal {A} a.
Arguments Abrupt {A} e.

Record Request := {
  url : string;
  method : string;
  headers : list (string * string);
  body : string
}.

(** What a run leaves behind in the world, in program order.  A [Fetch]
    carries the events of the callback registered with [.finally]; they
    happen when the promise settles. *)
Inductive Event :=
| Log (msg : string)
| Fetch (req : Request) (finally : list Event).

(** A computation: the events emitted so far and how it completed. *)
Definition M (A : Type) : Type := list Event * Completion A.

Definition ret {A} (a : A) : M A := ([], Normal a).

Definition bind {A B} (m : M A) (k : A → M B) : M B :=
  match m with
  | (t, Normal a) => let '(t', r) := k a in (t ++ t', r)
  | (t, Abrupt e) => (t, Abrupt e)
  end.

Definition throw {A} (e : Error) : M A := ([], Abrupt e).

(** [try { m } catch (e) { h e }] *)
Definition try_catch {A} (m : M A) (h : Error → M A) : M A :=
  match m with
  | (t, Normal a) => (t, Normal a)
  | (t, Abrupt e) => let '(t', r) := h e in (t ++ t', r)
  end.

Definition console_log (msg : string) : M unit := ([Log msg], Normal tt).

(** [o.p] where [None] stands for an [o] that is [undefined] or [null]. *)
Definition read {A B} (o : option A) (p : string) (proj : A → B) : M B :=
  match o with
  | Some a => ret (proj a)
  | None => throw (CannotRead p)
  end.

Definition events {A} (m : M A) : list Event := fst m.
Definition completion {A} (m : M A) : Completion A := snd m.

Definition is_fetch (e : Event) : bool :=
  match e with Fetch _ _ => true | Log _ => false end.

Definition is_log (e : Event) : bool :=
  match e with Log _ => true | Fetch _ _ => false end.

End Js.

Import Js.

Notation "'let*' x ':=' m 'in' k" := (bind m (fun x => k))
  (at level 10, x name, m at level 200, k at level 200).

(** ** Data model *)

(** An equipment-set record of [savedequip].  [None] is a property that is
    absent (reads as [undefined]). *)
Record Equip := {
  name : option string;
  accessory : option (list Z);
  head : option (list Z);
  boots : option (list Z);
  armor : option (list Z);
  pants : option (list Z);
  weapon : option (list Z)
}.

(** Elements of the arrays built by the [concat] chain: item identifiers,
    and the [undefined] that [concat] appends for an argument that is not
    an array. *)
Inductive Item :=
| Num (n : Z)
| Undefined.

(** An object literal, as its own properties in insertion order. *)
Definition Obj : Type := list (string * list Item).

Record Optimizer := { savedequip : option (list Equip) }.
Record AppState := { optimizer : option Optimizer }.

(** A value returned by [getState()]; [None] is [undefined]. *)
Definition StateValue : Type := option AppState.

(** The outcome of calling [store.getState()]. *)
Inductive Call :=
| Returns (v : StateValue)
| Raises.

(** [getState = None]: the property is missing or is not callable. *)
Record Store := { getState : option Call }.
Record Props := { store : option Store }.

(** A node of the host framework's rendering tree; only the two properties
    the script reads.  The tree is finite, so the [child] chain ends. *)
Inductive Fiber := mkFiber {
  pendingProps : option Props;
  child : option Fiber
}.

Record InternalRoot := { current : option Fiber }.
Record RootContainer := { _internalRoot : option InternalRoot }.
Record Element := { _reactRootContainer : option RootContainer }.

(** The ambient DOM as far as the handler looks at it:
    [document.getElementById('app')], [None] when it returns [null]. *)
Record Document := { app : option Element }.

(** ** Transformation *)

Module Transform.

(** [x => x < 10000] on an array element; [undefined < 10000] is
    [NaN < 10000], which is false. *)
Definition below_threshold (x : Item) : bool :=
  match x with
  | Num n => n <? 10000
  | Undefined => false
  end.

(** [arr.concat(arg)]: an array argument is spread, anything else is
    appended as one element. *)
Definition concat (arr : list Item) (arg : option (list Z)) : list Item :=
  match arg with
  | Some l => arr ++ (Num <$> l)
  | None => arr ++ [Undefined]
  end.

(** [x.accessory.concat(...)]: the receiver must have the method. *)
Definition receiver (o : option (list Z)) : M (list Item) :=
  read o "concat" (fmap Num).

(** The callback of [savedequip.map]; [None] is the [undefined] it
    returns when the [if] is not taken. *)
Definition entry (x : Equip) : M (option Obj) :=
  match name x with
  | Some n =>
      let* a := receiver (accessory x) in
      let all :=
        concat (concat (concat (concat (concat a
          (head x)) (boots x)) (armor x)) (pants x)) (weapon x) in
      ret (Some [(n, List.filter below_threshold all)])
  | None => ret None
  end.

(** [arr.map(f)] with a callback that may throw. *)
Fixpoint array_map {A B} (f : A → M B) (arr : list A) : M (list B) :=
  match arr with
  | [] => ret []
  | x :: rest =>
      let* y := f x in
      let* ys := array_map f rest in
      ret (y :: ys)
  end.

(** [x => x !== undefined] *)
Definition defined {A} (x : option A) : bool :=
  match x with Some _ => true | None => false end.

(** [$r.savedequip.map(...).filter(x => x !== undefined)] on the array. *)
Definition transform (se : list Equip) : M (list (option Obj)) :=
  let* mapped := array_map entry se in
  ret (List.filter defined mapped).

End Transform.

Import Transform.

(** ** Serialization: [JSON.stringify] on the payload's shapes *)

Module Json.

Definition dquote : ascii := "034"%char.
Definition backslash : ascii := "092"%char.

Definition hex_digit (n : N) : ascii :=
  if (n <? 10)%N then ascii_of_N (48 + n) else ascii_of_N (87 + n).

(** One code unit inside a JSON string: the two-character escapes, then
    [\u00xx] for the other control characters, anything else unchanged. *)
Definition escape (c : ascii) : string :=
  let n := N_of_ascii c in
  if (n =? 8)%N then String backslash "b"
  else if (n =? 9)%N then String backslash "t"
  else if (n =? 10)%N then String backslash "n"
  else if (n =? 12)%N then String backslash "f"
  else if (n =? 13)%N then String backslash "r"
  else if (n =? 34)%N then String backslash (String dquote "")
  else if (n =? 92)%N then String backslash (String backslash "")
  else if (n <? 32)%N then
    String backslash
      ("u00" +:+ String (hex_digit (n / 16)) (String (hex_digit (n mod 16)) ""))
  else String c "".

Fixpoint escape_all (s : string) : string :=
  match s with
  | EmptyString => ""
  | String c rest => escape c +:+ escape_all rest
  end.

Definition quote (s : string) : string :=
  String dquote (escape_all s +:+ String dquote "").

(** An array element: a number prints in decimal, [undefined] as [null]. *)
Definition stringify_item (x : Item) : string :=
  match x with
  | Num n => pretty n
  | Undefined => "null"
  end.

Definition stringify_items (l : list Item) : string :=
  "[" +:+ String.concat "," (stringify_item <$> l) +:+ "]".

Definition stringify_property (kv : string * list Item) : string :=
  quote kv.1 +:+ ":" +:+ stringify_items kv.2.

Definition stringify_obj (o : Obj) : string :=
  "{" +:+ String.concat "," (stringify_property <$> o) +:+ "}".

Definition stringify_elem (e : option Obj) : string :=
  match e with
  | Some o => stringify_obj o
  | None => "null"
  end.

Definition stringify (payload : list (option Obj)) : string :=
  "[" +:+ String.concat "," (stringify_elem <$> payload) +:+ "]".

End Json.

(** ** The click handler *)

Module Handler.

(** [reactRoot._reactRootContainer._internalRoot.current] *)
Definition root_lookup (reactRoot : option Element) : M (option Fiber) :=
  let* c := read reactRoot "_reactRootContainer" _reactRootContainer in
  let* r := read c "_internalRoot" _internalRoot in
  read r "current" current.

(** [base.pendingProps.store.getState()] *)
Definition read_state (base : Fiber) : M StateValue :=
  let* p := read (Some base) "pendingProps" pendingProps in
  let* s := read p "store" store in
  let* g := read s "getState" getState in
  match g with
  | Some (Returns v) => ret v
  | Some Raises => throw HostError
  | None => throw (NotAFunction "getState")
  end.

(** One round of the [while] body on a truthy [base], then the rounds for
    [base.child]. *)
Fixpoint while_body (base : Fiber) (appStates : list StateValue)
  : M (list StateValue) :=
  let* appStates' :=
    try_catch
      (let* state := read_state base in ret (appStates ++ [state]))
      (fun _ => ret appStates) in
  match child base with
  | Some next => while_body next appStates'
  | None => ret appStates'
  end.

(** [while (base) { ... }] *)
Definition while_base (base : option Fiber) (appStates : list StateValue)
  : M (list StateValue) :=
  match base with
  | Some b => while_body b appStates
  | None => ret appStates
  end.

Definition lookup_failed : string :=
  "Could not get internal root information from reactRoot element".

(** The retrieval step: from [let appStates = []] to the end of the loop. *)
Definition retrieve (document : Document) : M (list StateValue) :=
  let reactRoot := app document in
  let* base :=
    try_catch (root_lookup reactRoot)
      (fun _ => let* _ := console_log lookup_failed in ret None) in
  while_base base [].

Definition fetch (req : Request) (finally : M unit) : M unit :=
  ([Fetch req (events finally)], Normal tt).

Definition request (x : string) : Request :=
  {| url := "http://localhost:3000";
     method := "POST";
     body := x;
     headers := [("Content-Type", "application/json")] |}.

(** [let $r = appStates[0].optimizer] *)
Definition first_optimizer (appStates : list StateValue)
  : M (option Optimizer) :=
  read (mjoin (appStates !! 0%nat)) "optimizer" optimizer.

(** [$r.savedequip.map(...).filter(...)] *)
Definition payload_of (r : option Optimizer) : M (list (option Obj)) :=
  let* se := read r "savedequip" savedequip in
  let* arr := read se "map" id in
  transform arr.

(** The listener passed to [button.addEventListener("click", ...)]. *)
Definition onClick (document : Document) : M unit :=
  let* appStates := retrieve document in
  let* r := first_optimizer appStates in
  let* payload := payload_of r in
  let x := Json.stringify payload in
  fetch (request x) (console_log "Done").

(** How the promise returned by [fetch] ends. *)
Inductive Settlement := Fulfilled | Rejected.

(** [.finally(cb)]: [cb] runs once the promise settles, fulfilled or not. *)
Definition settle (s : Settlement) (e : Event) : list Event :=
  match e with
  | Fetch _ finally => finally
  | Log _ => []
  end.

End Handler.

Import Handler.

(** ** The observer variant: button life cycle ([src/unnamed/part_000]) *)

Module Observer.

(** A click listener registered with [{signal: controller.signal}]:
    the button it sits on and the controller whose signal removes it.
    Buttons and controllers are named by their creation number. *)
Record Listener := {
  target : nat;
  signal : nat
}.

Record Page := {
  controller : option nat;      (* [let controller;] *)
  created : nat;                (* controllers and buttons created so far *)
  appended : list nat;          (* buttons appended to the button section *)
  listeners : list Listener     (* click listeners still registered *)
}.

(** What the callbacks see of the host page when they run: the class list
    of the observed link and whether an element of class
    [button-section] exists. *)
Record Host := {
  classList : list string;
  button_section : bool
}.

Record MutationRecord := {
  type : string;
  attributeName : option string
}.

Definition loaded : Page :=
  {| controller := None; created := 0; appended := []; listeners := [] |}.

(** [addSyncButton()]: the controller is replaced and the listener is
    registered before [buttons.appendChild(button)], which throws when
    [getElementsByClassName("button-section")[0]] is [undefined]. *)
Definition addSyncButton (h : Host) (p : Page) : Page * Completion unit :=
  let g := created p in
  let registered :=
    listeners p ++ [{| target := g; signal := g |}] in
  if button_section h then
    ({| controller := Some g; created := S g;
        appended := appended p ++ [g]; listeners := registered |},
     Normal tt)
  else
    ({| controller := Some g; created := S g;
        appended := appended p; listeners := registered |},
     Abrupt (CannotRead "appendChild")).

(** [controller.abort()]: every listener registered with that
    controller's signal is removed. *)
Definition abort (c : nat) (p : Page) : Page :=
  {| controller := controller p; created := created p;
     appended := appended p;
     listeners :=
       List.filter (fun l => negb (Nat.eqb (signal l) c)) (listeners p) |}.

Definition contains (cl : list string) (token : string) : bool :=
  existsb (String.eqb token) cl.

Definition is_class_mutation (m : MutationRecord) : bool :=
  String.eqb (type m) "attributes"
  && match attributeName m with
     | Some a => String.eqb a "class"
     | None => false
     end.

(** The [MutationObserver] callback.  [mutation.target.classList] is the
    live class list of the observed link, the same for every record of
    one delivery. *)
Fixpoint callback (h : Host) (mutationsList : list MutationRecord)
    (p : Page) : Page * Completion unit :=
  match mutationsList with
  | [] => (p, Normal tt)
  | mutation :: rest =>
      if is_class_mutation mutation then
        if contains (classList h) "active" then
          match addSyncButton h p with
          | (p', Normal _) => callback h rest p'
          | (p', Abrupt e) => (p', Abrupt e)
          end
        else
          match controller p with
          | Some c => callback h rest (abort c p)
          | None => callback h rest p
          end
      else callback h rest p
  end.

(** [setupSyncButton]: the button added on page load; the observer is
    created only when that call returns. *)
Definition setupSyncButton (h : Host) : Page * Completion unit :=
  addSyncButton h loaded.

(** A click on button [b] runs the handler once per listener on it. *)
Definition click (b : nat) (p : Page) (document : Document)
  : list (M unit) :=
  (fun _ => onClick document)
    <$> List.filter (fun l => Nat.eqb (target l) b) (listeners p).

(** A delivery of one class mutation. *)
Definition class_changed : MutationRecord :=
  {| type := "attributes"; attributeName := Some "class" |}.

Definition tab_active : Host :=
  {| classList := ["active"]; button_section := true |}.

Definition tab_inactive : Host :=
  {| classList := []; button_section := false |}.

End Observer.

(** ** Sample inputs *)

Module Samples.

(** [{name:"A", weapon:[1,10000], head:[], boots:[], armor:[], pants:[],
    accessory:[]}] *)
Definition recA : Equip :=
  {| name := Some "A"; weapon := Some [1; 10000]; head := Some [];
     boots := Some []; armor := Some []; pants := Some [];
     accessory := Some [] |}.

(** [{weapon:[5]}] *)
Definition nameless : Equip :=
  {| name := None; weapon := Some [5]; head := None; boots := None;
     armor := None; pants := None; accessory := None |}.

(** [{name:"A", accessory:[1]}] *)
Definition accessory_only : Equip :=
  {| name := Some "A"; weapon := None; head := None; boots := None;
     armor := None; pants := None; accessory := Some [1] |}.

(** [{name:"B", weapon:[7], head:[], boots:[], armor:[], pants:[]}] *)
Definition no_accessory : Equip :=
  {| name := Some "B"; weapon := Some [7]; head := Some []; boots := Some [];
     armor := Some []; pants := Some []; accessory := None |}.

(** [{name:"Fire Build", ...}], the record of the spec's sample body. *)
Definition fire_build : Equip :=
  {| name := Some "Fire Build"; accessory := Some [101]; head := Some [202];
     boots := Some [303]; armor := Some [404]; pants := Some [505];
     weapon := Some [606] |}.

Definition node (c : option Call) (next : option Fiber) : Fiber :=
  mkFiber (Some {| store := Some {| getState := c |} |}) next.

Definition state_of (se : list Equip) : StateValue :=
  Some {| optimizer := Some {| savedequip := Some se |} |}.

Definition page_with (root : option Fiber) : Document :=
  {| app := Some {| _reactRootContainer :=
       Some {| _internalRoot := Some {| current := root |} |} |} |}.

(** A root fibre without props, then the provider holding the store. *)
Definition doc_of (se : list Equip) : Document :=
  page_with
    (Some (mkFiber None (Some (node (Some (Returns (state_of se))) None)))).

Definition no_app : Document := {| app := None |}.

End Samples.

(** ** Reference descriptions used in the statements *)

Module Spec.

(** The identifiers a slot contributes; an absent slot contributes none. *)
Definition slot (s : option (list Z)) : list Z := default [] s.

(** Slot order: accessory, head, boots, armor, pants, weapon. *)
Definition slots_in_order (x : Equip) : list Z :=
  slot (accessory x) ++ slot (head x) ++ slot (boots x)
    ++ slot (armor x) ++ slot (pants x) ++ slot (weapon x).

Definition kept (l : list Z) : list Z :=
  List.filter (fun v => v <? 10000) l.

(** The single-key mapping of a named record; nothing for a nameless one. *)
Definition mapping (x : Equip) : option Obj :=
  match name x with
  | Some n => Some [(n, Num <$> kept (slots_in_order x))]
  | None => None
  end.

(** A named record without [accessory]. *)
Definition raises (x : Equip) : bool :=
  defined (name x) && negb (defined (accessory x)).

(** All six slot collections are present. *)
Definition complete (x : Equip) : Prop :=
  is_Some (accessory x) ∧ is_Some (head x) ∧ is_Some (boots x)
  ∧ is_Some (armor x) ∧ is_Some (pants x) ∧ is_Some (weapon x).

(** At least one of the six slot collections is absent. *)
Definition missing_slot (x : Equip) : Prop :=
  accessory x = None ∨ head x = None ∨ boots x = None
  ∨ armor x = None ∨ pants x = None ∨ weapon x = None.

(** The nodes of the parent-to-child chain that starts at [b]. *)
Fixpoint chain (b : Fiber) : list Fiber :=
  b :: match child b with
       | Some next => chain next
       | None => []
       end.

Definition chain_from (base : option Fiber) : list Fiber :=
  match base with
  | Some b => chain b
  | None => []
  end.

(** The state value a node yields when its read succeeds. *)
Definition read_ok (b : Fiber) : option StateValue :=
  match completion (read_state b) with
  | Normal v => Some v
  | Abrupt _ => None
  end.

(** What the handler does once the retrieval step has produced
    [appStates]: lines 42-46 of [src/unnamed/part_000]. *)
Definition after_retrieval (appStates : list StateValue) : M unit :=
  let* r := first_optimizer appStates in
  let* payload := payload_of r in
  let x := Json.stringify payload in
  fetch (request x) (console_log "Done").

(** Induction along the [child] chain. *)
Fixpoint Fiber_chain_ind (P : Fiber → Prop)
    (Hlast : ∀ p, P (mkFiber p None))
    (Hnext : ∀ p next, P next → P (mkFiber p (Some next)))
    (b : Fiber) : P b :=
  match b with
  | mkFiber p None => Hlast p
  | mkFiber p (Some next) =>
      Hnext p next (Fiber_chain_ind P Hlast Hnext next)
  end.

End Spec.

Import Observer Samples Spec.

(** ** Runs of the observer variant *)

Module Lifecycle.

(** One delivery to the [MutationObserver] callback: the host page as the
    callback finds it and the records delivered. *)
Definition Delivery : Type := Host * list MutationRecord.

(** The page after a delivery.  An exception leaving the callback is
    reported by the browser; the changes made before it stay. *)
Definition deliver (p : Page) (d : Delivery) : Page :=
  fst (callback d.1 d.2 p).

Definition run (ds : list Delivery) (p : Page) : Page :=
  foldl deliver p ds.

(** The tab loses the class, then gains it again, [n] times over. *)
Fixpoint toggles (h_off h_on : Host) (n : nat) : list Delivery :=
  match n with
  | O => []
  | S k => (h_off, [class_changed]) :: (h_on, [class_changed])
           :: toggles h_off h_on k
  end.

(** Names are creation numbers: every listener sits on the button of its
    own generation, generations are below the counter and pairwise
    distinct, and so is the controller held in the variable. *)
Definition fresh (p : Page) : Prop :=
  Forall (fun l => target l = signal l ∧ (signal l < created p)%nat)
    (listeners p)
  ∧ NoDup (signal <$> listeners p)
  ∧ (∀ c, controller p = Some c → (c < created p)%nat).

(** Every registered listener belongs to the controller in the variable. *)
Definition owned (p : Page) : Prop :=
  ∀ l, l ∈ listeners p → controller p = Some (signal l).

(** How [setupSyncButton] can end abruptly: inside [addSyncButton], or in
    [observer.observe(gearButton, ...)] when [querySelector] found no
    link and [gearButton] is [null]. *)
Inductive SetupError :=
| InAddSyncButton (e : Error)
| ObserveNull.

(** The script after the [load] event: the page and whether the observer
    got to observe the gear link. *)
Record Script := {
  page : Page;
  observing : bool
}.

(** [setupSyncButton] in full.  [gearButton] tells whether
    [document.querySelector('.nav-bar-list > li:nth-child(1) > a')]
    finds an element. *)
Definition on_load (h : Host) (gearButton : bool)
  : Script * option SetupError :=
  match setupSyncButton h with
  | (p, Normal _) =>
      if gearButton then ({| page := p; observing := true |}, None)
      else ({| page := p; observing := false |}, Some ObserveNull)
  | (p, Abrupt e) =>
      ({| page := p; observing := false |}, Some (InAddSyncButton e))
  end.

(** A class mutation of the gear link reaches the callback only when the
    observer observes it. *)
Definition notify (s : Script) (d : Delivery) : Script :=
  if observing s then {| page := deliver (page s) d; observing := true |}
  else s.

End Lifecycle.

(** ** Reading the payload back *)

Module Payload.

(** The first own key of an element of the payload. *)
Definition key_of (e : option Obj) : option string :=
  match e with
  | Some ((k, _) :: _) => Some k
  | _ => None
  end.

Definition keys (out : list (option Obj)) : list string := omap key_of out.

(** The identifiers an element of the payload carries. *)
Definition values_of (e : option Obj) : list Item :=
  match e with
  | Some o => o ≫= snd
  | None => []
  end.

Definition hex_value (c : ascii) : option N :=
  let n := N_of_ascii c in
  if ((48 <=? n) && (n <=? 57))%N then Some (n - 48)%N
  else if ((97 <=? n) && (n <=? 102))%N then Some (n - 87)%N
  else None.

(** The inverse of [Json.escape_all]: what a JSON parser reads between
    the quotes of a string written by it.  A bare quote or control
    character is refused. *)
Fixpoint unescape (s : string) : option string :=
  match s with
  | EmptyString => Some EmptyString
  | String c rest =>
      if Ascii.eqb c Json.backslash then
        match rest with
        | String e rest' =>
            if Ascii.eqb e "b" then String "008" <$> unescape rest'
            else if Ascii.eqb e "t" then String "009" <$> unescape rest'
            else if Ascii.eqb e "n" then String "010" <$> unescape rest'
            else if Ascii.eqb e "f" then String "012" <$> unescape rest'
            else if Ascii.eqb e "r" then String "013" <$> unescape rest'
            else if Ascii.eqb e Json.dquote
              then String Json.dquote <$> unescape rest'
            else if Ascii.eqb e Json.backslash
              then String Json.backslash <$> unescape rest'
            else if Ascii.eqb e "u" then
              match rest' with
              | String "0" (String "0" (String h1 (String h2 rest''))) =>
                  match hex_value h1, hex_value h2 with
                  | Some a, Some b =>
                      String (ascii_of_N (16 * a + b)) <$> unescape rest''
                  | _, _ => None
                  end
              | _ => None
              end
            else None
        | EmptyString => None
        end
      else if Ascii.eqb c Json.dquote then None
      else if (N_of_ascii c <? 32)%N then None
      else String c <$> unescape rest
  end.

End Payload.

Import Lifecycle Payload.

(** [{name:"T", accessory:[10000,-3], boots:[9999], armor:[], pants:[],
    weapon:[]}]: values on both sides of the threshold, [head] absent. *)
Definition boundary : Equip :=
  {| name := Some "T"; accessory := Some [10000; -3]; head := None;
     boots := Some [9999]; armor := Some []; pants := Some [];
     weapon := Some [] |}.

(** * Properties *)

(** ** Laws of the effect monad *)

Lemma bind_ret_l {A B} (a : A) (k : A → M B) : bind (ret a) k = k a.
Proof. unfold bind, ret. by destruct (k a). Qed.

Lemma bind_pure {A B} (a : A) (k : A → M B) : bind ([], Normal a) k = k a.
Proof. apply bind_ret_l. Qed.

Lemma bind_abrupt {A B} t e (k : A → M B) :
  bind (t, Abrupt e) k = (t, Abrupt e).
Proof. reflexivity. Qed.

Lemma bind_events {A B} t (a : A) (k : A → M B) :
  bind (t, Normal a) k = (t ++ events (k a), completion (k a)).
Proof. unfold bind, events, completion. by destruct (k a). Qed.

(** ** The transformation *)

Section Transformation.

Lemma filter_Num (l : list Z) :
  List.filter below_threshold (Num <$> l) = Num <$> kept l.
Proof.
  induction l as [|v l IH]; [done|].
  cbn. destruct (v <? 10000); cbn; by rewrite IH.
Qed.

Lemma filter_concat (arr : list Item) (arg : option (list Z)) :
  List.filter below_threshold (concat arr arg)
  = List.filter below_threshold arr ++ (Num <$> kept (slot arg)).
Proof.
  destruct arg as [l|]; unfold concat; rewrite List.filter_app.
  - by rewrite filter_Num.
  - done.
Qed.

Lemma kept_app (l k : list Z) : kept (l ++ k) = kept l ++ kept k.
Proof. apply List.filter_app. Qed.

(** The callback either raises on the first [concat] or returns what
    [mapping] describes; it never logs or fetches. *)
Lemma entry_spec (x : Equip) :
  entry x = if raises x then ([], Abrupt (CannotRead "concat"))
            else ([], Normal (mapping x)).
Proof.
  unfold entry, raises, mapping, slots_in_order.
  destruct (name x) as [n|]; [|done].
  destruct (accessory x) as [a|]; [|done].
  cbn. do 3 f_equal. f_equal.
  rewrite !filter_concat, filter_Num, !kept_app, !fmap_app.
  by rewrite <- !app_assoc.
Qed.

Lemma array_map_entry (se : list Equip) :
  array_map entry se
  = if existsb raises se then ([], Abrupt (CannotRead "concat"))
    else ([], Normal (mapping <$> se)).
Proof.
  induction se as [|x se IH]; [done|].
  cbn [array_map existsb]. rewrite entry_spec.
  destruct (raises x); [done|].
  rewrite bind_pure, IH.
  by destruct (existsb raises se).
Qed.

Lemma transform_spec (se : list Equip) :
  transform se
  = if existsb raises se then ([], Abrupt (CannotRead "concat"))
    else ([], Normal (List.filter defined (mapping <$> se))).
Proof.
  unfold transform. rewrite array_map_entry.
  by destruct (existsb raises se).
Qed.

Lemma raises_false_named (x : Equip) :
  raises x = false → is_Some (name x) → is_Some (accessory x).
Proof.
  unfold raises. intros H [n Hn]. rewrite Hn in H.
  destruct (accessory x); [by eexists|done].
Qed.

Lemma existsb_raises_false (se : list Equip) :
  existsb raises se = false ↔ ∀ x, x ∈ se → raises x = false.
Proof.
  induction se as [|y se IH]; cbn.
  - split; [intros _ x Hx; by apply elem_of_nil in Hx|done].
  - rewrite orb_false_iff, IH. split.
    + intros [Hy Hse] x Hx. apply elem_of_cons in Hx as [->|Hx]; auto.
    + intros H. split; [apply H; left|intros x Hx; apply H; by right].
Qed.

Lemma transform_normal_inv (se : list Equip) t out :
  transform se = (t, Normal out) →
  existsb raises se = false ∧ t = []
  ∧ out = List.filter defined (mapping <$> se).
Proof.
  rewrite transform_spec. destruct (existsb raises se); [done|].
  by intros [= <- <-].
Qed.

Lemma mapping_complete (x : Equip) n a h b r p w :
  name x = Some n → accessory x = Some a → head x = Some h →
  boots x = Some b → armor x = Some r → pants x = Some p →
  weapon x = Some w →
  mapping x = Some [(n, Num <$> kept (a ++ h ++ b ++ r ++ p ++ w))].
Proof.
  intros Hn Ha Hh Hb Hr Hp Hw.
  unfold mapping, slots_in_order. by rewrite Hn, Ha, Hh, Hb, Hr, Hp, Hw.
Qed.

Lemma filter_defined_elem {A} (o : A) (l : list (option A)) :
  Some o ∈ l → Some o ∈ List.filter defined l.
Proof.
  rewrite !list_elem_of_In, List.filter_In. by intros H.
Qed.

Lemma filter_defined_no_placeholder {A} (l : list (option A)) :
  None ∉ List.filter defined l.
Proof.
  rewrite list_elem_of_In, List.filter_In. by intros [_ H].
Qed.

End Transformation.

(** C1: a named record with its six slot collections yields the single-key
    mapping from its name to the slot-order concatenation filtered to the
    values below 10000, and that mapping is in the output of the
    transformation; the sample record [{name:"A", weapon:[1,10000], ...}]
    gives [[{"A":[1]}]]. *)
Theorem C1_named_record_mapping (se : list Equip) (x : Equip)
    (n : string) (a h b r p w : list Z) :
  x ∈ se →
  (∀ y, y ∈ se → is_Some (name y) → is_Some (accessory y)) →
  name x = Some n → accessory x = Some a → head x = Some h →
  boots x = Some b → armor x = Some r → pants x = Some p →
  weapon x = Some w →
  let value :=
    Num <$> List.filter (fun v => v <? 10000) (a ++ h ++ b ++ r ++ p ++ w) in
  entry x = ([], Normal (Some [(n, value)]))
  ∧ (∃ out, transform se = ([], Normal out) ∧ Some [(n, value)] ∈ out)
  ∧ transform [recA] = ([], Normal [Some [("A", [Num 1])]]).
Proof.
  intros Hx Hse Hn Ha Hh Hb Hr Hp Hw value.
  assert (Hm : mapping x = Some [(n, value)])
    by (by apply mapping_complete).
  assert (Hok : existsb raises se = false).
  { apply existsb_raises_false. intros y Hy. unfold raises.
    destruct (name y) as [m|] eqn:Hm'; [|done].
    destruct (Hse y Hy) as [c Hc]; [by eexists|]. by rewrite Hc. }
  split; [|split; [|done]].
  - rewrite entry_spec. unfold raises. by rewrite Hn, Ha, Hm.
  - eexists. split; [by rewrite transform_spec, Hok|].
    apply filter_defined_elem. rewrite <- Hm.
    by apply list_elem_of_fmap_2.
Qed.

Lemma C1_witness :
  let value := [Num 1] in
  entry recA = ([], Normal (Some [("A", value)]))
  ∧ (∃ out, transform [nameless; recA] = ([], Normal out)
            ∧ Some [("A", value)] ∈ out)
  ∧ transform [recA] = ([], Normal [Some [("A", [Num 1])]]).
Proof.
  apply (C1_named_record_mapping [nameless; recA] recA "A"
           [] [] [] [] [] [1; 10000]); try reflexivity.
  - right; left.
  - intros y Hy [m Hm].
    apply elem_of_cons in Hy as [->|Hy]; [discriminate Hm|].
    apply list_elem_of_singleton in Hy as ->. by eexists.
Defined.

(** C3: a record whose [name] is undefined maps to the [undefined]
    placeholder, the filter pass removes every placeholder, and the output
    is the one obtained without that record; [[{weapon:[5]}]] gives [[]]. *)
Theorem C3_nameless_record_dropped (before after : list Equip) (x : Equip) :
  name x = None →
  entry x = ([], Normal None)
  ∧ (∀ mapped, array_map entry (before ++ x :: after) = ([], Normal mapped) →
       mapped !! length before = Some None
       ∧ transform (before ++ x :: after)
         = ([], Normal (List.filter defined mapped))
       ∧ None ∉ List.filter defined mapped)
  ∧ transform (before ++ x :: after) = transform (before ++ after)
  ∧ transform [nameless] = ([], Normal []).
Proof.
  intros Hn.
  assert (Hr : raises x = false) by (unfold raises; by rewrite Hn).
  assert (Hm : mapping x = None) by (unfold mapping; by rewrite Hn).
  split; [by rewrite entry_spec, Hr, Hm|].
  split; [|split; [|done]].
  - intros mapped Hmapped. split; [|split].
    + rewrite array_map_entry in Hmapped.
      destruct (existsb raises _); [done|].
      injection Hmapped as <-.
      rewrite fmap_app, lookup_app_r by (by rewrite length_fmap).
      rewrite length_fmap, Nat.sub_diag. cbn. by rewrite Hm.
    + unfold transform. by rewrite Hmapped.
    + apply filter_defined_no_placeholder.
  - rewrite !transform_spec, !existsb_app. cbn [existsb]. rewrite Hr.
    cbn [orb]. destruct (_ || _); [done|].
    rewrite !fmap_app, !List.filter_app. cbn. by rewrite Hm.
Qed.

Lemma C3_witness :
  entry nameless = ([], Normal None)
  ∧ transform ([recA] ++ nameless :: [recA]) = transform ([recA] ++ [recA])
  ∧ transform [nameless] = ([], Normal []).
Proof.
  destruct (C3_nameless_record_dropped [recA] [recA] nameless eq_refl)
    as (H1 & _ & H3 & H4).
  exact (conj H1 (conj H3 H4)).
Defined.

Lemma elem_of_kept (l : list Z) (u : Z) :
  u ∈ kept l ↔ u ∈ l ∧ u < 10000.
Proof.
  unfold kept. rewrite !list_elem_of_In, List.filter_In.
  by rewrite Z.ltb_lt.
Qed.

Lemma elem_of_Num (l : list Z) (u : Z) : Num u ∈ Num <$> l ↔ u ∈ l.
Proof.
  split.
  - intros H. by apply list_elem_of_fmap in H as (w & [= ->] & Hw).
  - apply list_elem_of_fmap_2.
Qed.

(** C4: in the mapping the handler builds for a named record, and so in
    the output of the transformation, a slot value is retained exactly
    when it is strictly below 10000: the value of the mapping is the
    slot-order concatenation with exactly the values below 10000 kept, so
    10000 is never in it, 9999 is in it whenever a slot holds it, and so
    is every negative slot value.  The callback of the filter decides
    this: it is true of a number exactly when the number is below
    10000. *)
Theorem C4_threshold_exclusive (x : Equip) (n : string) (a : list Z)
    (v : Z) :
  name x = Some n → accessory x = Some a →
  ∃ vals,
    entry x = ([], Normal (Some [(n, vals)]))
    ∧ vals = Num <$> List.filter (fun u => u <? 10000) (slots_in_order x)
    ∧ (Num v ∈ vals ↔ v ∈ slots_in_order x ∧ v < 10000)
    ∧ (Num 10000 ∉ vals)
    ∧ (9999 ∈ slots_in_order x → Num 9999 ∈ vals)
    ∧ (v ∈ slots_in_order x → v < 0 → Num v ∈ vals)
    ∧ (Undefined ∉ vals)
    ∧ (∀ se out, x ∈ se → transform se = ([], Normal out) →
         Some [(n, vals)] ∈ out)
    ∧ (below_threshold (Num v) = true ↔ v < 10000)
    ∧ below_threshold (Num 10000) = false
    ∧ below_threshold (Num 9999) = true
    ∧ (v < 0 → below_threshold (Num v) = true)
    ∧ (∀ arr : list Z,
         Num v ∈ List.filter below_threshold (Num <$> arr)
         ↔ v ∈ arr ∧ v < 10000).
Proof.
  intros Hn Ha.
  assert (Hm : mapping x = Some [(n, Num <$> kept (slots_in_order x))])
    by (unfold mapping; by rewrite Hn).
  assert (Hin : ∀ u, Num u ∈ Num <$> kept (slots_in_order x)
                     ↔ u ∈ slots_in_order x ∧ u < 10000)
    by (intros u; by rewrite elem_of_Num, elem_of_kept).
  assert (Hb : below_threshold (Num v) = true ↔ v < 10000)
    by (cbn; apply Z.ltb_lt).
  exists (Num <$> kept (slots_in_order x)).
  split; [|split; [done|split; [apply Hin|]]].
  { rewrite entry_spec. unfold raises. by rewrite Hn, Ha, Hm. }
  split; [intros H; apply Hin in H as [_ H]; lia|].
  split; [intros H; apply Hin; split; [done|lia]|].
  split; [intros H Hneg; apply Hin; split; [done|lia]|].
  split.
  { intros H. by apply list_elem_of_fmap in H as (w & [=] & _). }
  split.
  { intros se out Hx Hout.
    apply transform_normal_inv in Hout as (_ & _ & ->).
    apply filter_defined_elem. rewrite <- Hm.
    by apply list_elem_of_fmap_2. }
  split; [done|]. split; [done|]. split; [done|]. split.
  - intros Hneg. apply Hb. lia.
  - intros arr. by rewrite filter_Num, elem_of_Num, elem_of_kept.
Qed.

Lemma C4_witness :
  ∃ vals,
    entry boundary = ([], Normal (Some [("T", vals)]))
    ∧ vals = [Num (-3); Num 9999]
    ∧ Num (-3) ∈ vals
    ∧ Num 9999 ∈ vals
    ∧ (Num 10000 ∉ vals)
    ∧ (∀ out, transform [nameless; boundary] = ([], Normal out) →
         Some [("T", vals)] ∈ out).
Proof.
  destruct (C4_threshold_exclusive boundary "T" [10000; -3] (-3)
              eq_refl eq_refl)
    as (vals & He & Hv & _ & H10 & H99 & Hneg & _ & Hout & _).
  exists vals. split; [exact He|]. split; [exact Hv|].
  split; [|split; [|split; [exact H10|]]].
  - apply Hneg; [right; left|lia].
  - apply H99. right. right. left.
  - intros out. apply Hout. right. left.
Defined.

(** ** Order *)

Lemma kept_sublist (l : list Z) : sublist (kept l) l.
Proof.
  induction l as [|v l IH]; [constructor|].
  unfold kept in *. cbn. destruct (v <? 10000); by constructor.
Qed.

Lemma transform_app_normal (l k : list Equip) :
  existsb raises (l ++ k) = false →
  transform l = ([], Normal (List.filter defined (mapping <$> l)))
  ∧ transform k = ([], Normal (List.filter defined (mapping <$> k))).
Proof.
  rewrite existsb_app, orb_false_iff. intros [Hl Hk].
  by rewrite !transform_spec, Hl, Hk.
Qed.

(** C9: the output keeps the input's relative order: when named record [a]
    comes before named record [b], the output is the output for the records
    before [a], then [a]'s mapping, then the output for the records between,
    then [b]'s mapping, then the output for the rest; and each mapping's
    value is a subsequence of the record's slots in slot order. *)
Theorem C9_order_preserved (l1 l2 l3 : list Equip) (a b : Equip)
    (na nb : string) (out : list (option Obj)) :
  name a = Some na → name b = Some nb →
  transform (l1 ++ a :: l2 ++ b :: l3) = ([], Normal out) →
  ∃ o1 o2 o3 va vb,
    out = o1 ++ Some [(na, Num <$> va)] :: o2 ++ Some [(nb, Num <$> vb)] :: o3
    ∧ transform l1 = ([], Normal o1)
    ∧ transform l2 = ([], Normal o2)
    ∧ transform l3 = ([], Normal o3)
    ∧ entry a = ([], Normal (Some [(na, Num <$> va)]))
    ∧ entry b = ([], Normal (Some [(nb, Num <$> vb)]))
    ∧ sublist va (slots_in_order a)
    ∧ sublist vb (slots_in_order b).
Proof.
  intros Ha Hb Hout.
  apply transform_normal_inv in Hout as (Hok & _ & ->).
  pose proof Hok as Hall. rewrite existsb_raises_false in Hall.
  assert (Hra : raises a = false).
  { apply Hall. apply elem_of_app. right. left. }
  assert (Hrb : raises b = false).
  { apply Hall. apply elem_of_app. right. right.
    apply elem_of_app. right. left. }
  destruct (transform_app_normal _ _ Hok) as [H1 _].
  rewrite existsb_app in Hok. apply orb_false_iff in Hok as [_ Hok].
  cbn [existsb] in Hok. apply orb_false_iff in Hok as [_ Hok].
  destruct (transform_app_normal _ _ Hok) as [H2 _].
  rewrite existsb_app in Hok. apply orb_false_iff in Hok as [_ Hok].
  cbn [existsb] in Hok. apply orb_false_iff in Hok as [_ Hok].
  assert (H3 : transform l3
               = ([], Normal (List.filter defined (mapping <$> l3))))
    by (by rewrite transform_spec, Hok).
  exists (List.filter defined (mapping <$> l1)),
         (List.filter defined (mapping <$> l2)),
         (List.filter defined (mapping <$> l3)),
         (kept (slots_in_order a)), (kept (slots_in_order b)).
  assert (Hma : mapping a = Some [(na, Num <$> kept (slots_in_order a))])
    by (unfold mapping; by rewrite Ha).
  assert (Hmb : mapping b = Some [(nb, Num <$> kept (slots_in_order b))])
    by (unfold mapping; by rewrite Hb).
  repeat split; try done.
  - rewrite fmap_app, List.filter_app, fmap_cons. cbn [List.filter].
    rewrite Hma. cbn [defined].
    rewrite fmap_app, List.filter_app, fmap_cons. cbn [List.filter].
    rewrite Hmb. by cbn [defined].
  - by rewrite entry_spec, Hra, Hma.
  - by rewrite entry_spec, Hrb, Hmb.
  - apply kept_sublist.
  - apply kept_sublist.
Qed.

Lemma C9_witness :
  ∃ o1 o2 o3 va vb,
    [Some [("Fire Build", Num <$> [101; 202; 303; 404; 505; 606])];
     Some [("A", [Num 1])]]
    = o1 ++ Some [("Fire Build", Num <$> va)] :: o2
         ++ Some [("A", Num <$> vb)] :: o3
    ∧ transform [] = ([], Normal o1)
    ∧ transform [nameless] = ([], Normal o2)
    ∧ transform [] = ([], Normal o3)
    ∧ entry fire_build = ([], Normal (Some [("Fire Build", Num <$> va)]))
    ∧ entry recA = ([], Normal (Some [("A", Num <$> vb)]))
    ∧ sublist va (slots_in_order fire_build)
    ∧ sublist vb (slots_in_order recA).
Proof.
  apply (C9_order_preserved [] [nameless] [] fire_build recA
           "Fire Build" "A"); reflexivity.
Defined.

(** ** Absent slots *)

(** C10, as stated, fails: a named record that has [accessory] but none of
    the other five slots raises nothing; the activation posts
    [[{"A":[1]}]]. *)
Lemma C10_counterexample :
  accessory_only ∈ [accessory_only]
  ∧ is_Some (name accessory_only)
  ∧ missing_slot accessory_only
  ∧ transform [accessory_only] = ([], Normal [Some [("A", [Num 1])]])
  ∧ onClick (doc_of [accessory_only])
    = ([Fetch (request (Json.stringify [Some [("A", [Num 1])]]))
          [Log "Done"]], Normal tt)
  ∧ ¬ (∀ se x, x ∈ se → is_Some (name x) → missing_slot x →
         ∃ t e, transform se = (t, Abrupt e)).
Proof.
  split; [left|]. split; [by eexists|].
  split; [right; by left|]. split; [done|]. split; [done|].
  intros H.
  destruct (H [accessory_only] accessory_only) as (t & e & Habs).
  - left.
  - by eexists.
  - right. by left.
  - discriminate Habs.
Qed.

(** ** State retrieval *)

Lemma read_state_cases (b : Fiber) :
  (∃ v, read_state b = ([], Normal v) ∧ read_ok b = Some v)
  ∨ (∃ e, read_state b = ([], Abrupt e) ∧ read_ok b = None).
Proof.
  unfold read_ok.
  destruct b as [[[[[[[v|]|]]|]]|] next]; cbn; eauto.
Qed.

(** One round of the loop body: a successful read is pushed, a failed one
    leaves [appStates] as it was; nothing is logged either way. *)
Lemma round_spec (b : Fiber) (appStates : list StateValue) :
  try_catch (let* state := read_state b in ret (appStates ++ [state]))
    (fun _ => ret appStates)
  = ([], Normal (appStates ++ omap read_ok [b])).
Proof.
  cbn [omap list_omap].
  destruct (read_state_cases b) as [(v & -> & ->)|(e & -> & ->)]; cbn.
  - done.
  - by rewrite app_nil_r.
Qed.

Lemma while_body_spec (b : Fiber) :
  ∀ appStates,
    while_body b appStates = ([], Normal (appStates ++ omap read_ok (chain b))).
Proof.
  induction b as [p|p next IH] using Fiber_chain_ind; intros appStates.
  - change (while_body (mkFiber p None) appStates)
      with (let* appStates' :=
              try_catch
                (let* state := read_state (mkFiber p None) in
                 ret (appStates ++ [state]))
                (fun _ => ret appStates) in
            ret appStates').
    by rewrite round_spec.
  - change (while_body (mkFiber p (Some next)) appStates)
      with (let* appStates' :=
              try_catch
                (let* state := read_state (mkFiber p (Some next)) in
                 ret (appStates ++ [state]))
                (fun _ => ret appStates) in
            while_body next appStates').
    rewrite round_spec, bind_pure, IH.
    change (chain (mkFiber p (Some next)))
      with (mkFiber p (Some next) :: chain next).
    cbn [omap list_omap]. destruct (read_ok _); cbn.
    + by rewrite <- app_assoc.
    + by rewrite app_nil_r.
Qed.

Lemma while_base_spec (base : option Fiber) (appStates : list StateValue) :
  while_base base appStates
  = ([], Normal (appStates ++ omap read_ok (chain_from base))).
Proof.
  destruct base as [b|]; cbn.
  - apply while_body_spec.
  - by rewrite app_nil_r.
Qed.

Lemma root_lookup_cases (reactRoot : option Element) :
  (∃ base, root_lookup reactRoot = ([], Normal base))
  ∨ (∃ e, root_lookup reactRoot = ([], Abrupt e)).
Proof.
  destruct reactRoot as [[[[[[base]|]]|]]|]; cbn; eauto.
Qed.

Lemma retrieve_found (document : Document) (base : option Fiber) :
  root_lookup (app document) = ([], Normal base) →
  retrieve document = ([], Normal (omap read_ok (chain_from base))).
Proof.
  intros H. unfold retrieve. rewrite H. cbn [try_catch].
  by rewrite bind_pure, while_base_spec.
Qed.

Lemma retrieve_not_found (document : Document) (e : Error) :
  root_lookup (app document) = ([], Abrupt e) →
  retrieve document = ([Log lookup_failed], Normal []).
Proof. intros H. unfold retrieve. by rewrite H. Qed.

(** The retrieval step logs at most the lookup message and never fetches. *)
Lemma retrieve_cases (document : Document) :
  ∃ logs states,
    retrieve document = (logs, Normal states)
    ∧ (logs = [] ∨ logs = [Log lookup_failed]).
Proof.
  destruct (root_lookup_cases (app document)) as [[base H]|[e H]].
  - erewrite retrieve_found by done. eauto.
  - erewrite retrieve_not_found by done. eauto.
Qed.

Lemma retrieve_no_fetch (document : Document) logs r :
  retrieve document = (logs, r) → List.filter is_fetch logs = [].
Proof.
  destruct (retrieve_cases document) as (l & s & -> & [->| ->]);
    by intros [= <- _].
Qed.

Lemma onClick_unfold (document : Document) :
  onClick document = bind (retrieve document) after_retrieval.
Proof. reflexivity. Qed.

(** An activation that raises after the retrieval step leaves only the
    retrieval's log lines behind. *)
Lemma onClick_raises (document : Document) logs states e :
  retrieve document = (logs, Normal states) →
  after_retrieval states = ([], Abrupt e) →
  onClick document = (logs, Abrupt e)
  ∧ List.filter is_fetch (events (onClick document)) = [].
Proof.
  intros Hr Ha.
  assert (H : onClick document = (logs, Abrupt e))
    by (by rewrite onClick_unfold, Hr, bind_events, Ha, app_nil_r).
  split; [done|]. rewrite H. by eapply retrieve_no_fetch.
Qed.

Lemma first_optimizer_events (appStates : list StateValue) :
  events (first_optimizer appStates) = [].
Proof. unfold first_optimizer. by destruct (mjoin _). Qed.

Lemma payload_of_events (r : option Optimizer) :
  events (payload_of r) = [].
Proof.
  destruct r as [[[se|]]|]; try done.
  unfold payload_of.
  do 2 (cbn [read savedequip]; rewrite bind_ret_l).
  unfold id. rewrite transform_spec. by destruct (existsb _ _).
Qed.

Lemma pure_eta {A} (m : M A) : events m = [] → m = ([], completion m).
Proof. destruct m as [t c]. cbn. by intros ->. Qed.

(** C5: when the traversal collects no state value, reading [optimizer]
    off [appStates[0]] raises; the activation ends there with an uncaught
    error, before the transformation and without any request. *)
Theorem C5_no_state_nodes (document : Document) (logs : list Event) :
  retrieve document = (logs, Normal []) →
  first_optimizer [] = ([], Abrupt (CannotRead "optimizer"))
  ∧ onClick document = (logs, Abrupt (CannotRead "optimizer"))
  ∧ List.filter is_fetch (events (onClick document)) = [].
Proof.
  intros H. split; [done|]. by apply (onClick_raises document logs []).
Qed.

Lemma C5_witness :
  first_optimizer [] = ([], Abrupt (CannotRead "optimizer"))
  ∧ onClick (page_with (Some (node (Some Raises) (Some (node None None)))))
    = ([], Abrupt (CannotRead "optimizer"))
  ∧ List.filter is_fetch
      (events
         (onClick
            (page_with (Some (node (Some Raises) (Some (node None None)))))))
    = [].
Proof.
  apply (C5_no_state_nodes
           (page_with (Some (node (Some Raises) (Some (node None None)))))
           []).
  reflexivity.
Defined.

(** C6: the retrieval step always completes normally; a node whose state
    read fails is skipped without a trace and the walk goes on with its
    child; a failed root lookup logs exactly one message and the walk
    starts from an undefined base, so the collected list is empty. *)
Theorem C6_retrieval_failures_contained (document : Document) :
  (∃ logs states, retrieve document = (logs, Normal states))
  ∧ (∀ (base : Fiber) (appStates : list StateValue) (e : Error),
       read_state base = ([], Abrupt e) →
       while_body base appStates = while_base (child base) appStates)
  ∧ (∀ e, root_lookup (app document) = ([], Abrupt e) →
       try_catch (root_lookup (app document))
         (fun _ => let* _ := console_log lookup_failed in ret None)
       = ([Log lookup_failed], Normal None)
       ∧ retrieve document = ([Log lookup_failed], Normal [])).
Proof.
  split; [|split].
  - destruct (retrieve_cases document) as (logs & states & H & _). eauto.
  - intros base appStates e H.
    rewrite while_body_spec, while_base_spec.
    destruct base as [p next]. cbn [child].
    change (chain (mkFiber p next))
      with (mkFiber p next :: chain_from next).
    cbn [omap list_omap]. unfold read_ok at 1. by rewrite H.
  - intros e H. split; [by rewrite H|by eapply retrieve_not_found].
Qed.

Lemma C6_witness :
  while_body (node (Some Raises) (Some (node None None))) []
  = while_base (Some (node None None)) []
  ∧ retrieve no_app = ([Log lookup_failed], Normal []).
Proof.
  destruct (C6_retrieval_failures_contained no_app) as (_ & Hnode & Hroot).
  split.
  - apply (Hnode (node (Some Raises) (Some (node None None))) [] HostError).
    reflexivity.
  - apply (Hroot (CannotRead "_reactRootContainer")). reflexivity.
Defined.

(** C7: an activation that gets past retrieval, the [optimizer] read and
    the transformation issues exactly one request: POST to
    http://localhost:3000 with header Content-Type: application/json and
    the serialized payload as body; when it settles, either way, the
    [finally] callback logs one line and issues nothing. *)
Theorem C7_single_post (document : Document) (logs : list Event)
    (states : list StateValue) (r : option Optimizer)
    (payload : list (option Obj)) :
  retrieve document = (logs, Normal states) →
  completion (first_optimizer states) = Normal r →
  completion (payload_of r) = Normal payload →
  let req := request (Json.stringify payload) in
  onClick document = (logs ++ [Fetch req [Log "Done"]], Normal tt)
  ∧ List.filter is_fetch (events (onClick document))
    = [Fetch req [Log "Done"]]
  ∧ method req = "POST"
  ∧ url req = "http://localhost:3000"
  ∧ headers req = [("Content-Type", "application/json")]
  ∧ body req = Json.stringify payload
  ∧ (∀ s, settle s (Fetch req [Log "Done"]) = [Log "Done"]).
Proof.
  intros Hr Hf Hp req.
  assert (H : onClick document = (logs ++ [Fetch req [Log "Done"]], Normal tt)).
  { rewrite onClick_unfold, Hr, bind_events. unfold after_retrieval.
    rewrite (pure_eta _ (first_optimizer_events states)), Hf, bind_pure.
    by rewrite (pure_eta _ (payload_of_events r)), Hp, bind_pure. }
  split; [done|]. split; [|done].
  rewrite H. cbn [events fst]. rewrite List.filter_app.
  by rewrite (retrieve_no_fetch _ _ _ Hr).
Qed.

Lemma C7_witness :
  let req := request (Json.stringify
    [Some [("Fire Build", Num <$> [101; 202; 303; 404; 505; 606])]]) in
  onClick (doc_of [fire_build]) = ([] ++ [Fetch req [Log "Done"]], Normal tt)
  ∧ List.filter is_fetch (events (onClick (doc_of [fire_build])))
    = [Fetch req [Log "Done"]]
  ∧ method req = "POST"
  ∧ url req = "http://localhost:3000"
  ∧ headers req = [("Content-Type", "application/json")]
  ∧ body req = Json.stringify
      [Some [("Fire Build", Num <$> [101; 202; 303; 404; 505; 606])]]
  ∧ (∀ s, settle s (Fetch req [Log "Done"]) = [Log "Done"]).
Proof.
  apply (C7_single_post (doc_of [fire_build]) [] [state_of [fire_build]]
           (Some {| savedequip := Some [fire_build] |})); reflexivity.
Defined.

(** The body of the spec's sample request. *)
Example fire_build_body :
  Json.stringify [Some [("Fire Build", Num <$> [101; 202; 303; 404; 505; 606])]]
  = "[{" +:+ Json.quote "Fire Build" +:+ ":[101,202,303,404,505,606]}]".
Proof. reflexivity. Qed.

Lemma retrieve_nonempty_inv (document : Document) logs first rest :
  retrieve document = (logs, Normal (first :: rest)) →
  ∃ base, root_lookup (app document) = ([], Normal base)
          ∧ logs = []
          ∧ first :: rest = omap read_ok (chain_from base).
Proof.
  intros H.
  destruct (root_lookup_cases (app document)) as [[base Hb]|[e He]].
  - rewrite (retrieve_found _ _ Hb) in H. injection H as <- <-. eauto.
  - by rewrite (retrieve_not_found _ _ He) in H.
Qed.



(** C10, amended: the transformation raises exactly when some named record
    lacks [accessory], the receiver of the first [concat]; the activation
    then ends in that error with no request.  Another absent slot adds no
    element and raises nothing, so with [accessory] present on every named
    record, and in particular with all six slots present, the
    transformation completes, nameless records being arbitrary. *)
Theorem C10_absent_accessory_raises (se : list Equip) :
  ((∃ x, x ∈ se ∧ is_Some (name x) ∧ accessory x = None)
     ↔ transform se = ([], Abrupt (CannotRead "concat")))
  ∧ (∀ document logs rest,
       (∃ x, x ∈ se ∧ is_Some (name x) ∧ accessory x = None) →
       retrieve document = (logs, Normal (state_of se :: rest)) →
       onClick document = (logs, Abrupt (CannotRead "concat"))
       ∧ List.filter is_fetch (events (onClick document)) = [])
  ∧ ((∀ x, x ∈ se → is_Some (name x) → is_Some (accessory x)) →
       transform se = ([], Normal (List.filter defined (mapping <$> se))))
  ∧ ((∀ x, x ∈ se → is_Some (name x) → complete x) →
       transform se = ([], Normal (List.filter defined (mapping <$> se))))
  ∧ (∀ x n a, x ∈ se → name x = Some n → accessory x = Some a →
       entry x = ([], Normal (Some [(n, Num <$> kept (slots_in_order x))]))).
Proof.
  assert (Hiff : (∃ x, x ∈ se ∧ is_Some (name x) ∧ accessory x = None)
                 ↔ existsb raises se = true).
  { rewrite existsb_exists. split.
    - intros (x & Hx & [n Hn] & Ha). exists x.
      rewrite <- list_elem_of_In. split; [done|].
      unfold raises. by rewrite Hn, Ha.
    - intros (x & Hx & Hr). exists x.
      rewrite <- list_elem_of_In in Hx. split; [done|].
      unfold raises in Hr.
      destruct (name x); [|done]. destruct (accessory x); [done|].
      split; [by eexists|done]. }
  assert (Hok : (∀ x, x ∈ se → is_Some (name x) → is_Some (accessory x)) →
                transform se
                = ([], Normal (List.filter defined (mapping <$> se)))).
  { intros H. rewrite transform_spec.
    assert (E : existsb raises se = false).
    { apply not_true_is_false. intros E.
      apply Hiff in E as (x & Hx & Hn & Ha).
      destruct (H x Hx Hn) as [a Ha']. congruence. }
    by rewrite E. }
  split; [|split; [|split; [|split]]].
  - rewrite Hiff, transform_spec. by destruct (existsb raises se).
  - intros document logs rest Hbad Hr.
    apply (onClick_raises _ _ _ _ Hr).
    unfold after_retrieval.
    change (first_optimizer (state_of se :: rest))
      with (ret (Some {| savedequip := Some se |})).
    rewrite bind_ret_l. unfold payload_of.
    do 2 (cbn [read savedequip]; rewrite bind_ret_l). unfold id.
    apply Hiff in Hbad. by rewrite transform_spec, Hbad.
  - exact Hok.
  - intros H. apply Hok. intros x Hx Hn. by destruct (H x Hx Hn).
  - intros x n a _ Hn Ha. rewrite entry_spec. unfold raises, mapping.
    by rewrite Hn, Ha.
Qed.

Lemma C10_witness :
  transform [nameless; no_accessory] = ([], Abrupt (CannotRead "concat"))
  ∧ onClick (doc_of [nameless; no_accessory])
    = ([], Abrupt (CannotRead "concat"))
  ∧ transform [accessory_only; nameless]
    = ([], Normal (List.filter defined
                     (mapping <$> [accessory_only; nameless]))).
Proof.
  destruct (C10_absent_accessory_raises [nameless; no_accessory])
    as (Hraise & Hclick & _).
  destruct (C10_absent_accessory_raises [accessory_only; nameless])
    as (_ & _ & Hok & _).
  assert (Hbad : ∃ x, x ∈ [nameless; no_accessory]
                      ∧ is_Some (name x) ∧ accessory x = None).
  { exists no_accessory. split; [right; left|]. split; [by eexists|done]. }
  split; [by apply Hraise|]. split.
  - by apply (Hclick (doc_of [nameless; no_accessory]) [] [] Hbad).
  - apply Hok. intros x Hx [n Hn].
    apply elem_of_cons in Hx as [->|Hx]; [by eexists|].
    apply list_elem_of_singleton in Hx as ->. discriminate Hn.
Defined.

(** ** Button life cycle *)

Lemma callback_active_once (p : Page) :
  callback tab_active [class_changed] p = addSyncButton tab_active p.
Proof. reflexivity. Qed.

Lemma abort_keeps_other (c : nat) (l : Listener) (p : Page) :
  l ∈ listeners p → signal l ≠ c → l ∈ listeners (abort c p).
Proof.
  intros Hl Hc. cbn. rewrite list_elem_of_In, List.filter_In.
  rewrite <- list_elem_of_In. split; [done|].
  by apply negb_true_iff, Nat.eqb_neq.
Qed.

Lemma click_runs_handler (l : Listener) (p : Page) (document : Document) :
  l ∈ listeners p → onClick document ∈ click (target l) p document.
Proof.
  intros Hl. unfold click.
  apply (list_elem_of_fmap_2 (fun _ => onClick document) _ l).
  rewrite list_elem_of_In, List.filter_In, <- list_elem_of_In.
  split; [done|]. apply Nat.eqb_refl.
Qed.

(** C2 on the code: the tab is seen active twice in succession, with no
    loss of the class in between.  Both activations register a listener and
    remove none: the first generation's listener is still registered next
    to the second's, a click on either button runs the handler, the
    controller variable holds the second generation only, and a later
    deactivation aborts that one and leaves the first registered.  One
    delivery carrying two records does the same. *)
Theorem C2_second_activation_keeps_first_listener (p : Page)
    (document : Document) :
  let p1 := (callback tab_active [class_changed] p).1 in
  let p2 := (callback tab_active [class_changed] p1).1 in
  let first := {| target := created p; signal := created p |} in
  let second := {| target := S (created p); signal := S (created p) |} in
  listeners p1 = listeners p ++ [first]
  ∧ listeners p2 = listeners p ++ [first; second]
  ∧ controller p2 = Some (signal second)
  ∧ onClick document ∈ click (target first) p2 document
  ∧ onClick document ∈ click (target second) p2 document
  ∧ first ∈ listeners (fst (callback tab_inactive [class_changed] p2))
  ∧ (second ∉ listeners (fst (callback tab_inactive [class_changed] p2)))
  ∧ (callback tab_active [class_changed; class_changed] p).1 = p2.
Proof.
  intros p1 p2 first second.
  assert (H1 : listeners p1 = listeners p ++ [first]) by done.
  assert (H2 : listeners p2 = listeners p ++ [first; second]).
  { subst p2. rewrite callback_active_once. cbn [addSyncButton tab_active
      button_section fst listeners]. rewrite H1.
    by rewrite <- app_assoc. }
  assert (Hf : first ∈ listeners p2).
  { rewrite H2. apply elem_of_app. right. left. }
  assert (Hs : second ∈ listeners p2).
  { rewrite H2. apply elem_of_app. right. right. left. }
  split; [done|]. split; [done|]. split; [done|].
  split; [by apply click_runs_handler|].
  split; [by apply click_runs_handler|].
  split; [|split; [|done]].
  - change (fst (callback tab_inactive [class_changed] p2))
      with (abort (S (created p)) p2).
    apply abort_keeps_other; [done|]. cbn. lia.
  - change (fst (callback tab_inactive [class_changed] p2))
      with (abort (S (created p)) p2).
    cbn [abort listeners]. rewrite list_elem_of_In, List.filter_In.
    intros [_ Hneg]. cbn in Hneg. by rewrite Nat.eqb_refl in Hneg.
Qed.

(** After page load with the gear tab active, two such activations leave
    three registered listeners, one per button. *)
Example two_activations_after_load :
  let p0 := (setupSyncButton tab_active).1 in
  let p1 := (callback tab_active [class_changed] p0).1 in
  let p2 := (callback tab_active [class_changed] p1).1 in
  listeners p2
  = [{| target := 0; signal := 0 |}; {| target := 1; signal := 1 |};
     {| target := 2; signal := 2 |}]
  ∧ controller p2 = Some 2%nat
  ∧ listeners (fst (callback tab_inactive [class_changed] p2))
    = [{| target := 0; signal := 0 |}; {| target := 1; signal := 1 |}].
Proof. by repeat split. Qed.

(** The bodies of the spec's two transformation samples. *)
Example sample_recA_body :
  Json.stringify [Some [("A", [Num 1])]]
  = "[{" +:+ Json.quote "A" +:+ ":[1]}]".
Proof. reflexivity. Qed.

Example sample_nameless_body :
  onClick (doc_of [nameless])
  = ([Fetch (request "[]") [Log "Done"]], Normal tt).
Proof. reflexivity. Qed.

(** * Further properties of the handler *)

Lemma after_retrieval_cases (appStates : list StateValue) :
  (∃ payload,
     after_retrieval appStates
     = ([Fetch (request (Json.stringify payload)) [Log "Done"]], Normal tt))
  ∨ (∃ p, p ∈ ["optimizer"; "savedequip"; "map"; "concat"]
          ∧ after_retrieval appStates = ([], Abrupt (CannotRead p))).
Proof.
  destruct appStates as [|[[[[[se|]]|]]|] rest].
  - right. exists "optimizer". split; [left|done].
  - unfold after_retrieval.
    change (first_optimizer _) with (ret (Some {| savedequip := Some se |})).
    rewrite bind_ret_l. unfold payload_of.
    do 2 (cbn [read savedequip]; rewrite bind_ret_l). unfold id.
    rewrite transform_spec. destruct (existsb raises se).
    + right. exists "concat". split; [|done]. do 3 right. left.
    + left. eexists. by rewrite bind_pure.
  - right. exists "map". split; [|done]. do 2 right. left.
  - right. exists "savedequip". split; [|done]. right. left.
  - right. exists "optimizer". split; [left|done].
Qed.

(** Every activation ends in one of three ways: one request and nothing
    else; a [TypeError] on one of the four reads [optimizer], [savedequip],
    [map], [concat] with nothing logged; or the lookup message followed by
    the [TypeError] on [optimizer].  An exception of the host's [getState]
    never leaves the handler, and a request is never preceded by the
    lookup message. *)
Theorem onClick_outcomes (document : Document) :
  (∃ payload,
     onClick document
     = ([Fetch (request (Json.stringify payload)) [Log "Done"]], Normal tt))
  ∨ (∃ p, p ∈ ["optimizer"; "savedequip"; "map"; "concat"]
          ∧ onClick document = ([], Abrupt (CannotRead p)))
  ∨ onClick document = ([Log lookup_failed], Abrupt (CannotRead "optimizer")).
Proof.
  rewrite onClick_unfold.
  destruct (root_lookup_cases (app document)) as [[base H]|[e H]].
  - rewrite (retrieve_found _ _ H), bind_pure.
    destruct (after_retrieval_cases (omap read_ok (chain_from base)))
      as [?|?]; auto.
  - rewrite (retrieve_not_found _ _ H). by do 2 right.
Qed.

(** When the first collected state has an [optimizer] without
    [savedequip], the activation raises on reading [map] and sends
    nothing. *)
Theorem missing_savedequip_raises (document : Document) (logs : list Event)
    (rest : list StateValue) :
  retrieve document
  = (logs, Normal (Some {| optimizer := Some {| savedequip := None |} |}
                     :: rest)) →
  onClick document = (logs, Abrupt (CannotRead "map"))
  ∧ List.filter is_fetch (events (onClick document)) = [].
Proof. intros H. by apply (onClick_raises _ _ _ _ H). Qed.

Lemma missing_savedequip_raises_witness :
  let document :=
    page_with
      (Some (node (Some (Returns
                (Some {| optimizer := Some {| savedequip := None |} |})))
               (Some (node (Some (Returns (state_of [recA]))) None)))) in
  onClick document = ([], Abrupt (CannotRead "map"))
  ∧ List.filter is_fetch (events (onClick document)) = [].
Proof.
  intros document.
  apply (missing_savedequip_raises document [] [state_of [recA]]).
  reflexivity.
Defined.

Lemma transform_nameless (se : list Equip) :
  (∀ x, x ∈ se → name x = None) → transform se = ([], Normal []).
Proof.
  intros H. rewrite transform_spec.
  assert (E : existsb raises se = false).
  { apply existsb_raises_false. intros x Hx. unfold raises.
    by rewrite (H x Hx). }
  rewrite E. do 2 f_equal.
  induction se as [|x se IH]; [done|]. cbn.
  unfold mapping at 1. rewrite (H x) by left. cbn.
  apply IH.
  - intros y Hy. apply H. by right.
  - apply existsb_raises_false. intros y Hy.
    unfold raises. rewrite (H y); [done|by right].
Qed.

(** A [savedequip] that is empty or holds only nameless records is still
    sent: the request body is the empty array. *)
Theorem nameless_only_posts_empty_array (document : Document)
    (logs : list Event) (rest : list StateValue) (se : list Equip) :
  retrieve document = (logs, Normal (state_of se :: rest)) →
  (∀ x, x ∈ se → name x = None) →
  onClick document = ([Fetch (request "[]") [Log "Done"]], Normal tt).
Proof.
  intros Hr Hse.
  destruct (retrieve_nonempty_inv _ _ _ _ Hr) as (_ & _ & -> & _).
  rewrite onClick_unfold, Hr, bind_pure. unfold after_retrieval.
  change (first_optimizer _) with (ret (Some {| savedequip := Some se |})).
  rewrite bind_ret_l. unfold payload_of.
  do 2 (cbn [read savedequip]; rewrite bind_ret_l). unfold id.
  by rewrite (transform_nameless _ Hse), bind_pure.
Qed.

Lemma nameless_only_posts_empty_array_witness :
  onClick (doc_of [nameless; nameless])
  = ([Fetch (request "[]") [Log "Done"]], Normal tt)
  ∧ onClick (doc_of [])
    = ([Fetch (request "[]") [Log "Done"]], Normal tt).
Proof.
  split.
  - apply (nameless_only_posts_empty_array _ [] [] [nameless; nameless]);
      [reflexivity|].
    intros x Hx. apply elem_of_cons in Hx as [->|Hx]; [done|].
    by apply list_elem_of_singleton in Hx as ->.
  - apply (nameless_only_posts_empty_array _ [] [] []); [reflexivity|].
    intros x Hx. by apply elem_of_nil in Hx.
Defined.

Lemma kept_below (l : list Z) : Forall (fun z => z < 10000) (kept l).
Proof.
  apply Forall_forall. intros z Hz.
  apply list_elem_of_In, List.filter_In in Hz as [_ Hz]. by apply Z.ltb_lt.
Qed.

(** With integer identifiers in the slots, every element of a payload is
    an object with one key whose value holds integers below 10000 only:
    the [undefined] that [concat] appends for an absent slot and the
    placeholder of a nameless record do not get into the output. *)
Theorem payload_is_clean (se : list Equip) (out : list (option Obj))
    (e : option Obj) :
  transform se = ([], Normal out) → e ∈ out →
  (∃ n vals, e = Some [(n, Num <$> vals)]
             ∧ Forall (fun z => z < 10000) vals)
  ∧ e ≠ None
  ∧ Undefined ∉ values_of e.
Proof.
  intros H He. apply transform_normal_inv in H as (_ & _ & ->).
  apply list_elem_of_In, List.filter_In in He as [He Hd].
  apply list_elem_of_In, list_elem_of_fmap in He as (x & -> & _).
  unfold mapping in *. destruct (name x) as [n|]; [|done].
  split; [|split; [done|]].
  - eexists _, _. split; [done|]. apply kept_below.
  - cbn. rewrite app_nil_r. intros Hu.
    by apply list_elem_of_fmap in Hu as (w & [=] & _).
Qed.

Lemma payload_is_clean_witness :
  (∃ n vals, Some [("A", [Num 1])] = Some [(n, Num <$> vals)]
             ∧ Forall (fun z => z < 10000) vals)
  ∧ Some [("A", [Num 1])] ≠ None
  ∧ Undefined ∉ values_of (Some [("A", [Num 1])]).
Proof.
  apply (payload_is_clean [accessory_only; nameless]
           [Some [("A", [Num 1])]]); [reflexivity|left].
Defined.

(** The keys of the payload are the defined names of [savedequip], in
    order and with repetitions: records that share a name are not merged. *)
Theorem payload_keys (se : list Equip) (out : list (option Obj)) :
  transform se = ([], Normal out) →
  keys out = omap name se ∧ length out = length (omap name se).
Proof.
  intros H. apply transform_normal_inv in H as (_ & _ & ->).
  unfold keys. induction se as [|x se [IH1 IH2]]; [done|].
  rewrite fmap_cons. cbn [List.filter omap list_omap].
  destruct (name x) as [n|] eqn:Hn.
  - assert (Hm : mapping x = Some [(n, Num <$> kept (slots_in_order x))])
      by (unfold mapping; by rewrite Hn).
    rewrite Hm. cbn [defined omap list_omap key_of length].
    by rewrite IH1, IH2.
  - assert (Hm : mapping x = None) by (unfold mapping; by rewrite Hn).
    by rewrite Hm.
Qed.

Lemma payload_keys_witness :
  keys [Some [("A", [Num 1])]; Some [("A", [Num 1])]] = ["A"; "A"]
  ∧ length [Some [("A", [Num 1])]; Some [("A", [Num 1])]] = 2%nat.
Proof.
  apply (payload_keys [recA; nameless; accessory_only]). reflexivity.
Defined.

(** The transformation of a concatenation is the transformations of the
    parts, one after the other: it raises when either part does and
    otherwise yields the two outputs appended. *)
Theorem transform_app (l k : list Equip) :
  transform (l ++ k)
  = (let* a := transform l in let* b := transform k in ret (a ++ b)).
Proof.
  rewrite !transform_spec, existsb_app.
  destruct (existsb raises l); [done|]. rewrite bind_pure.
  destruct (existsb raises k); [done|]. rewrite bind_pure.
  by rewrite fmap_app, List.filter_app.
Qed.

(** The lookup message is logged exactly when [reactRoot], its
    [_reactRootContainer] or that container's [_internalRoot] is missing.
    A root whose [current] is undefined is not logged: the walk just
    collects nothing. *)
Theorem lookup_logged_iff_root_missing (document : Document) :
  ((app document ≫= _reactRootContainer) ≫= _internalRoot = None →
     retrieve document = ([Log lookup_failed], Normal []))
  ∧ (∀ r, (app document ≫= _reactRootContainer) ≫= _internalRoot = Some r →
       retrieve document = ([], Normal (omap read_ok (chain_from (current r))))).
Proof.
  destruct document as [[[[[[[base]|]]|]]|]];
    (split; [intros H|intros r H]); cbn in H; try done.
  injection H as <-. by apply retrieve_found.
Qed.

Lemma lookup_logged_iff_root_missing_witness :
  retrieve {| app := Some {| _reactRootContainer := None |} |}
  = ([Log lookup_failed], Normal [])
  ∧ retrieve (page_with None) = ([], Normal []).
Proof.
  split.
  - by apply (lookup_logged_iff_root_missing
                {| app := Some {| _reactRootContainer := None |} |}).
  - by apply (proj2 (lookup_logged_iff_root_missing (page_with None))
                {| current := None |}).
Defined.

(** * Further properties of the button life cycle *)

Lemma List_filter_sublist {A} (f : A → bool) (l : list A) :
  sublist (List.filter f l) l.
Proof.
  induction l as [|x l IH]; [constructor|].
  cbn. destruct (f x); by constructor.
Qed.

Lemma List_filter_idem {A} (f : A → bool) (l : list A) :
  List.filter f (List.filter f l) = List.filter f l.
Proof.
  induction l as [|x l IH]; [done|].
  cbn. destruct (f x) eqn:E; [|done]. cbn. by rewrite E, IH.
Qed.

Lemma addSyncButton_page (h : Host) (p : Page) :
  listeners (fst (addSyncButton h p))
  = listeners p ++ [{| target := created p; signal := created p |}]
  ∧ controller (fst (addSyncButton h p)) = Some (created p)
  ∧ created (fst (addSyncButton h p)) = S (created p).
Proof. unfold addSyncButton. by destruct (button_section h). Qed.

Lemma abort_idem (c : nat) (p : Page) : abort c (abort c p) = abort c p.
Proof. unfold abort. cbn. by rewrite List_filter_idem. Qed.

Lemma fresh_loaded : fresh loaded.
Proof. repeat split; [constructor|constructor|done]. Qed.

Lemma fresh_addSyncButton (h : Host) (p : Page) :
  fresh p → fresh (fst (addSyncButton h p)).
Proof.
  intros (Hl & Hn & Hc).
  destruct (addSyncButton_page h p) as (El & Ec & En).
  unfold fresh. rewrite El, Ec, En. split; [|split].
  - apply Forall_app. split.
    + eapply Forall_impl; [exact Hl|]. cbn. intros l [? ?]. split; [done|lia].
    + apply Forall_singleton. cbn. split; [done|lia].
  - rewrite fmap_app. apply NoDup_app. split; [done|]. split.
    + intros g Hg Hg'. apply list_elem_of_singleton in Hg'. subst g.
      apply list_elem_of_fmap in Hg as (l & E & Hin).
      rewrite Forall_forall in Hl. destruct (Hl l Hin) as [_ Hlt].
      cbn in E. lia.
    + apply NoDup_singleton.
  - intros c [= <-]. lia.
Qed.

Lemma fresh_abort (c : nat) (p : Page) : fresh p → fresh (abort c p).
Proof.
  intros (Hl & Hn & Hc). split; [|split]; cbn.
  - rewrite Forall_forall in *. intros l Hin. apply Hl.
    apply list_elem_of_In, List.filter_In in Hin as [Hin _].
    by apply list_elem_of_In.
  - eapply sublist_NoDup; [exact Hn|].
    apply fmap_sublist, List_filter_sublist.
  - done.
Qed.

Lemma fresh_callback (h : Host) (ms : list MutationRecord) (p : Page) :
  fresh p → fresh (fst (callback h ms p)).
Proof.
  revert p. induction ms as [|m ms IH]; intros p Hp; [done|].
  cbn [callback]. destruct (is_class_mutation m); [|by apply IH].
  destruct (contains (classList h) "active").
  - pose proof (fresh_addSyncButton h p Hp) as Hp'.
    destruct (addSyncButton h p) as [p' [u|e]]; [by apply IH|done].
  - destruct (controller p); apply IH; [by apply fresh_abort|done].
Qed.

Lemma fresh_run (ds : list Delivery) (p : Page) :
  fresh p → fresh (run ds p).
Proof.
  revert p. induction ds as [|d ds IH]; intros p Hp; [done|].
  cbn. apply IH. by apply fresh_callback.
Qed.

Lemma fresh_after_load (h : Host) (ds : list Delivery) :
  fresh (run ds (fst (setupSyncButton h))).
Proof. apply fresh_run, fresh_addSyncButton, fresh_loaded. Qed.

(** Whatever is delivered after page load, generations stay apart: each
    registered listener sits on the button of its own generation, no two
    listeners share a controller, and every controller ever held, the
    current one included, is older than the next one to be created. *)
Theorem generations_stay_fresh (h : Host) (ds : list Delivery) :
  fresh (run ds (fst (setupSyncButton h))).
Proof. apply fresh_after_load. Qed.

Lemma click_at_most_once (b : nat) (p : Page) (document : Document) :
  fresh p → (length (click b p document) ≤ 1)%nat.
Proof.
  intros (Hl & Hn & _). unfold click. rewrite length_fmap.
  induction (listeners p) as [|l ls IH]; [cbn; lia|].
  apply Forall_cons in Hl as [[Ht _] Hl].
  rewrite fmap_cons in Hn. apply NoDup_cons in Hn as [Hnotin Hn].
  cbn [List.filter]. destruct (Nat.eqb (target l) b) eqn:E; [|by apply IH].
  apply Nat.eqb_eq in E.
  assert (Hnil : List.filter (fun l0 => Nat.eqb (target l0) b) ls = []).
  { destruct (List.filter _ ls) as [|l' rest] eqn:F; [done|]. exfalso.
    assert (Hin : In l' (List.filter (fun l0 => Nat.eqb (target l0) b) ls))
      by (rewrite F; by left).
    apply List.filter_In in Hin as [Hin Hb]. apply Nat.eqb_eq in Hb.
    apply list_elem_of_In in Hin. rewrite Forall_forall in Hl.
    destruct (Hl l' Hin) as [Ht' _]. apply Hnotin.
    apply list_elem_of_fmap. exists l'. split; [congruence|done]. }
  rewrite Hnil. cbn. lia.
Qed.

(** However many buttons have piled up, a click on one button runs the
    handler at most once: no button ever carries two listeners. *)
Theorem one_click_one_activation (h : Host) (ds : list Delivery) (b : nat)
    (document : Document) :
  (length (click b (run ds (fst (setupSyncButton h))) document) ≤ 1)%nat.
Proof. apply click_at_most_once, fresh_after_load. Qed.

Lemma callback_inactive (h : Host) (ms : list MutationRecord) (p : Page) :
  contains (classList h) "active" = false →
  callback h ms p
  = (if existsb is_class_mutation ms
     then match controller p with Some c => abort c p | None => p end
     else p, Normal tt).
Proof.
  intros Hoff. revert p. induction ms as [|m ms IH]; intros p; [done|].
  cbn [callback existsb]. destruct (is_class_mutation m); cbn [orb].
  - rewrite Hoff. destruct (controller p) as [c|] eqn:Ec; rewrite IH.
    + change (controller (abort c p)) with (controller p). rewrite Ec.
      rewrite abort_idem. by destruct (existsb _ _).
    + rewrite Ec. by destruct (existsb _ _).
  - apply IH.
Qed.

(** When the tab is seen without the class, the current controller is
    aborted, once however many records the delivery carries: exactly the
    listeners of that controller go, and on a page with fresh generations
    a click on the current button then runs nothing. *)
Theorem deactivation_disables_current_button (h : Host)
    (ms : list MutationRecord) (p : Page) (c : nat) (document : Document) :
  fresh p → controller p = Some c →
  contains (classList h) "active" = false →
  existsb is_class_mutation ms = true →
  deliver p (h, ms) = abort c p
  ∧ (∀ l, l ∈ listeners (deliver p (h, ms))
          ↔ l ∈ listeners p ∧ signal l ≠ c)
  ∧ click c (deliver p (h, ms)) document = [].
Proof.
  intros (Hl & _ & _) Hc Hoff Hms.
  assert (E : deliver p (h, ms) = abort c p).
  { unfold deliver. cbn [fst snd]. by rewrite callback_inactive, Hms, Hc. }
  rewrite E. split; [done|]. split.
  - intros l. cbn. rewrite !list_elem_of_In, List.filter_In.
    by rewrite negb_true_iff, Nat.eqb_neq.
  - unfold click. cbn [abort listeners].
    destruct (List.filter _ (List.filter _ _)) as [|l rest] eqn:F; [done|].
    exfalso.
    assert (Hin : In l (l :: rest)) by (by left).
    rewrite <- F in Hin. apply List.filter_In in Hin as [Hin Hb].
    apply List.filter_In in Hin as [Hin Hs].
    apply Nat.eqb_eq in Hb. apply negb_true_iff, Nat.eqb_neq in Hs.
    rewrite Forall_forall in Hl.
    destruct (Hl l) as [Ht _]; [by apply list_elem_of_In|]. congruence.
Qed.

Lemma deactivation_disables_current_button_witness :
  let p := fst (setupSyncButton tab_active) in
  deliver p (tab_inactive, [class_changed; class_changed]) = abort 0 p
  ∧ (∀ l, l ∈ listeners
              (deliver p (tab_inactive, [class_changed; class_changed]))
          ↔ l ∈ listeners p ∧ signal l ≠ 0%nat)
  ∧ click 0 (deliver p (tab_inactive, [class_changed; class_changed])) no_app
    = [].
Proof.
  intros p.
  apply (deactivation_disables_current_button tab_inactive
           [class_changed; class_changed] p 0 no_app); try reflexivity.
  apply (fresh_after_load tab_active []).
Defined.

Lemma callback_keeps_stranger (h : Host) (ms : list MutationRecord)
    (p : Page) (l : Listener) :
  fresh p → l ∈ listeners p → controller p ≠ Some (signal l) →
  l ∈ listeners (fst (callback h ms p))
  ∧ controller (fst (callback h ms p)) ≠ Some (signal l).
Proof.
  revert p. induction ms as [|m ms IH]; intros p Hp Hl Hc; [done|].
  cbn [callback]. destruct (is_class_mutation m); [|by apply IH].
  destruct (contains (classList h) "active").
  - pose proof (fresh_addSyncButton h p Hp) as Hp'.
    destruct (addSyncButton_page h p) as (El & Ec & _).
    assert (Hl' : l ∈ listeners (fst (addSyncButton h p))).
    { rewrite El. apply elem_of_app. by left. }
    assert (Hc' : controller (fst (addSyncButton h p)) ≠ Some (signal l)).
    { rewrite Ec. intros [= E]. destruct Hp as (Hf & _ & _).
      rewrite Forall_forall in Hf. destruct (Hf l Hl) as [_ Hlt]. lia. }
    destruct (addSyncButton h p) as [p' [u|e]]; simpl in Hp', Hl', Hc'.
    + by apply IH.
    + by split.
  - destruct (controller p) as [c|] eqn:Ecp.
    + apply IH.
      * by apply fresh_abort.
      * apply abort_keeps_other; [done|]. intros E. apply Hc. by rewrite E.
      * cbn. by rewrite Ecp.
    + apply IH; [done|done|by rewrite Ecp].
Qed.

(** A listener whose controller is no longer the one in the variable is
    out of reach for good: whatever is delivered afterwards, it stays
    registered and its controller never comes back into the variable. *)
Theorem stranded_listener_stays (ds : list Delivery) (p : Page)
    (l : Listener) :
  fresh p → l ∈ listeners p → controller p ≠ Some (signal l) →
  l ∈ listeners (run ds p) ∧ controller (run ds p) ≠ Some (signal l).
Proof.
  revert p. induction ds as [|d ds IH]; intros p Hp Hl Hc; [done|].
  cbn [run foldl]. unfold deliver at 2.
  destruct (callback_keeps_stranger d.1 d.2 p l Hp Hl Hc) as [Hl' Hc'].
  apply IH; [by apply fresh_callback|done|done].
Qed.

Lemma stranded_listener_stays_witness :
  let p := run [(tab_active, [class_changed])]
             (fst (setupSyncButton tab_active)) in
  let l := {| target := 0; signal := 0 |} in
  let ds := [(tab_inactive, [class_changed]); (tab_active, [class_changed]);
             (tab_inactive, [class_changed])] in
  l ∈ listeners (run ds p) ∧ controller (run ds p) ≠ Some (signal l).
Proof.
  intros p l ds. apply (stranded_listener_stays ds p l).
  - apply (fresh_after_load tab_active [(tab_active, [class_changed])]).
  - left.
  - discriminate.
Defined.

Lemma toggle_once (h_off h_on : Host) (p : Page) :
  owned p →
  contains (classList h_off) "active" = false →
  contains (classList h_on) "active" = true →
  let q := deliver (deliver p (h_off, [class_changed]))
             (h_on, [class_changed]) in
  listeners q = [{| target := created p; signal := created p |}]
  ∧ created q = S (created p)
  ∧ owned q.
Proof.
  intros Hown Hoff Hon.
  set (p1 := deliver p (h_off, [class_changed])).
  assert (H1 : listeners p1 = [] ∧ created p1 = created p).
  { unfold p1, deliver. cbn [fst snd]. rewrite callback_inactive by done.
    cbn [existsb is_class_mutation class_changed type attributeName
         String.eqb Ascii.eqb Bool.eqb andb orb fst].
    destruct (controller p) as [c|] eqn:Ec.
    - split; [|done]. cbn [abort listeners].
      destruct (List.filter _ _) as [|l rest] eqn:F; [done|]. exfalso.
      assert (Hin : In l (l :: rest)) by (by left).
      rewrite <- F in Hin. apply List.filter_In in Hin as [Hin Hs].
      apply negb_true_iff, Nat.eqb_neq in Hs.
      apply list_elem_of_In, Hown in Hin. congruence.
    - split; [|done]. destruct (listeners p) as [|l rest] eqn:F; [done|].
      assert (Hin : l ∈ listeners p) by (rewrite F; left).
      apply Hown in Hin. congruence. }
  destruct H1 as [Hl1 Hc1]. intros q.
  assert (Eq : q = fst (addSyncButton h_on p1)).
  { unfold q, deliver. cbn [fst snd callback].
    cbn [is_class_mutation class_changed type attributeName
         String.eqb Ascii.eqb Bool.eqb andb].
    rewrite Hon. by destruct (addSyncButton h_on p1) as [p' [u|e]]. }
  destruct (addSyncButton_page h_on p1) as (El & Ec & En).
  rewrite Eq, El, En, Hl1, Hc1. split; [done|]. split; [done|].
  intros l Hl. rewrite El, Hl1, Hc1 in Hl. rewrite Ec, Hc1.
  by apply list_elem_of_singleton in Hl as ->.
Qed.

(** In the sequence the script is written for, the class lost and then
    gained again, listeners do not pile up: from a page whose listeners
    all belong to the current controller, after any number of such rounds
    exactly one listener is registered, the one of the last button. *)
Theorem toggling_keeps_one_listener (h_off h_on : Host) (n : nat)
    (p : Page) :
  owned p →
  contains (classList h_off) "active" = false →
  contains (classList h_on) "active" = true →
  listeners (run (toggles h_off h_on (S n)) p)
  = [{| target := (created p + n)%nat; signal := (created p + n)%nat |}]
  ∧ controller (run (toggles h_off h_on (S n)) p)
    = Some (created p + n)%nat.
Proof.
  intros Hown Hoff Hon. revert p Hown.
  induction n as [|n IH]; intros p Hown.
  - destruct (toggle_once h_off h_on p Hown Hoff Hon) as (Hl & _ & Ho).
    cbn [toggles run foldl]. rewrite Nat.add_0_r. split; [done|].
    apply (Ho {| target := created p; signal := created p |}).
    rewrite Hl. left.
  - destruct (toggle_once h_off h_on p Hown Hoff Hon) as (_ & Hc & Ho).
    specialize (IH _ Ho). rewrite Hc in IH.
    replace (created p + S n)%nat with (S (created p) + n)%nat by lia.
    exact IH.
Qed.

Lemma toggling_keeps_one_listener_witness :
  listeners (run (toggles tab_inactive tab_active 3)
               (fst (setupSyncButton tab_active)))
  = [{| target := 3; signal := 3 |}]
  ∧ controller (run (toggles tab_inactive tab_active 3)
                  (fst (setupSyncButton tab_active)))
    = Some 3%nat.
Proof.
  apply (toggling_keeps_one_listener tab_inactive tab_active 2
           (fst (setupSyncButton tab_active))); [|reflexivity|reflexivity].
  intros l Hl. by apply list_elem_of_singleton in Hl as ->.
Defined.

(** Records that are not class mutations change nothing: a delivery does
    what its class mutations alone would do. *)
Theorem other_mutations_ignored (h : Host) (ms : list MutationRecord)
    (p : Page) :
  callback h ms p = callback h (List.filter is_class_mutation ms) p.
Proof.
  revert p. induction ms as [|m ms IH]; intros p; [done|].
  cbn [List.filter]. destruct (is_class_mutation m) eqn:E.
  - cbn [callback]. rewrite E.
    destruct (contains (classList h) "active").
    + destruct (addSyncButton h p) as [p' [u|e]]; [apply IH|done].
    + destruct (controller p); apply IH.
  - cbn [callback]. rewrite E. apply IH.
Qed.

(** The class list is read when the callback runs, not per record: while
    the link is active and the button section exists, a delivery adds one
    button with its own listener for each class mutation it carries, also
    for a record that was queued when the class was lost. *)
Theorem active_delivery_adds_button_per_record (h : Host)
    (ms : list MutationRecord) (p : Page) :
  contains (classList h) "active" = true → button_section h = true →
  let k := length (List.filter is_class_mutation ms) in
  ∃ p', callback h ms p = (p', Normal tt)
        ∧ listeners p'
          = listeners p
            ++ ((fun g => {| target := g; signal := g |})
                  <$> seq (created p) k)
        ∧ appended p' = appended p ++ seq (created p) k
        ∧ created p' = (created p + k)%nat.
Proof.
  intros Hon Hsec. revert p. induction ms as [|m ms IH]; intros p.
  - exists p. cbn. by rewrite !app_nil_r, Nat.add_0_r.
  - cbn [callback List.filter]. destruct (is_class_mutation m).
    + rewrite Hon. unfold addSyncButton at 1. rewrite Hsec.
      match goal with
      | |- context [callback h ms ?q] => destruct (IH q) as (p' & E & Hl & Ha & Hc)
      end.
      exists p'. cbn [listeners appended created] in Hl, Ha, Hc.
      cbn [length seq fmap list_fmap]. split; [done|].
      rewrite Hl, Ha, Hc, <- !app_assoc. repeat split; try done. lia.
    + apply IH.
Qed.

Lemma active_delivery_adds_button_per_record_witness :
  ∃ p', callback tab_active
          [class_changed; {| type := "childList"; attributeName := None |};
           class_changed] (fst (setupSyncButton tab_active))
        = (p', Normal tt)
        ∧ listeners p'
          = [{| target := 0; signal := 0 |}]
            ++ ((fun g => {| target := g; signal := g |}) <$> seq 1 2)
        ∧ appended p' = [0%nat] ++ seq 1 2
        ∧ created p' = (1 + 2)%nat.
Proof.
  apply (active_delivery_adds_button_per_record tab_active
           [class_changed; {| type := "childList"; attributeName := None |};
            class_changed] (fst (setupSyncButton tab_active)));
    reflexivity.
Defined.

(** Without a button section [addSyncButton] fails at [appendChild], after
    it has replaced the controller and registered the listener: the
    delivery ends there, its remaining records are not looked at, and the
    new button is on no page. *)
Theorem missing_section_cuts_delivery (h : Host) (m : MutationRecord)
    (rest : list MutationRecord) (p : Page) :
  is_class_mutation m = true →
  contains (classList h) "active" = true →
  button_section h = false →
  ∃ p', callback h (m :: rest) p = (p', Abrupt (CannotRead "appendChild"))
        ∧ listeners p'
          = listeners p ++ [{| target := created p; signal := created p |}]
        ∧ controller p' = Some (created p)
        ∧ appended p' = appended p.
Proof.
  intros Hm Hon Hsec. cbn [callback]. rewrite Hm, Hon.
  unfold addSyncButton. rewrite Hsec. by eexists.
Qed.

Lemma missing_section_cuts_delivery_witness :
  ∃ p', callback {| classList := ["nav"; "active"]; button_section := false |}
          [class_changed; class_changed] loaded
        = (p', Abrupt (CannotRead "appendChild"))
        ∧ listeners p' = [] ++ [{| target := 0; signal := 0 |}]
        ∧ controller p' = Some 0%nat
        ∧ appended p' = [].
Proof.
  apply (missing_section_cuts_delivery
           {| classList := ["nav"; "active"]; button_section := false |}
           class_changed [class_changed] loaded); reflexivity.
Defined.

Lemma notify_idle (s : Script) (ds : list Delivery) :
  observing s = false → foldl notify s ds = s.
Proof.
  intros H. induction ds as [|d ds IH]; [done|].
  cbn. unfold notify at 2. by rewrite H.
Qed.

Lemma notify_observing (p : Page) (ds : list Delivery) :
  foldl notify {| page := p; observing := true |} ds
  = {| page := run ds p; observing := true |}.
Proof.
  revert p. induction ds as [|d ds IH]; intros p; [done|].
  cbn. by rewrite IH.
Qed.

(** The [load] handler decides once and for all: with a button section
    and the gear link present it ends normally and every later delivery
    reaches the callback; without either it ends in an error before
    [observe], and no later class change has any effect.  Without the
    button section no button is ever on the page. *)
Theorem load_decides_observation (h : Host) (gearButton : bool)
    (ds : list Delivery) :
  let s := fst (on_load h gearButton) in
  if button_section h && gearButton then
    snd (on_load h gearButton) = None
    ∧ foldl notify s ds
      = {| page := run ds (fst (setupSyncButton h)); observing := true |}
  else
    is_Some (snd (on_load h gearButton))
    ∧ foldl notify s ds = s
    ∧ listeners (page s) = [{| target := 0; signal := 0 |}]
    ∧ appended (page s) = (if button_section h then [0%nat] else []).
Proof.
  unfold on_load, setupSyncButton, addSyncButton.
  destruct (button_section h), gearButton; cbn [andb fst snd].
  - split; [done|]. apply notify_observing.
  - split; [by eexists|]. split; [by apply notify_idle|done].
  - split; [by eexists|]. split; [by apply notify_idle|done].
  - split; [by eexists|]. split; [by apply notify_idle|done].
Qed.

(** * Serialized names *)

Lemma unescape_escape (c : ascii) (t : string) :
  unescape (Json.escape c +:+ t) = String c <$> unescape t.
Proof. destruct c as [[] [] [] [] [] [] [] []]; reflexivity. Qed.

(** A name is written between the quotes so that it can be read back
    unchanged, quotes, backslashes and control characters included; two
    different names are never written as the same key text. *)
Theorem name_escaping_round_trip (s : string) :
  unescape (Json.escape_all s) = Some s
  ∧ (∀ s', Json.escape_all s = Json.escape_all s' → s = s').
Proof.
  assert (H : ∀ u, unescape (Json.escape_all u) = Some u).
  { induction u as [|c u IH]; [done|].
    cbn [Json.escape_all]. by rewrite unescape_escape, IH. }
  split; [apply H|].
  intros s' E. apply (f_equal unescape) in E. rewrite !H in E. congruence.
Qed.

Lemma name_escaping_round_trip_witness :
  unescape (Json.escape_all (String Json.dquote (String "010" "A")))
  = Some (String Json.dquote (String "010" "A")).
Proof.
  apply (name_escaping_round_trip (String Json.dquote (String "010" "A"))).
Defined.
